(** * QuicKart store-layout API: resolvers over a document store

    A shallow embedding of the GraphQL resolvers of
    [src/model/items/index.js] (and of the second server file of the
    repository, which differs in its [createItem] resolver), together with
    the properties of the bay subdivision, the map validation, the
    snapshots and the identifier shaping.

    Conventions of the embedding.
    - GraphQL [Int] arguments and every integer-valued JavaScript variable
      are [Z].  JavaScript numbers are doubles, so no wrap-around occurs in
      [xEndVal - xStartVal + 1] on 32-bit arguments.
    - [width/3] is JavaScript's real division.  The quotient and what is
      computed from it are rationals [Q], compared with [==] as numbers
      ([Qeq]).  On spans that are multiples of 3, the ones the properties
      below are about, every value is an integer and the double arithmetic
      is exact.
    - A resolver is a computation [M A] over the database: it returns a
      value or raises an exception, and threads the store.
    - A collection is the list of its documents in insertion order;
      [insert] appends the document under a fresh store identifier. *)

From Stdlib Require Import ZArith QArith List Ascii String Bool Lia Permutation.
Import ListNotations.

Local Open Scope string_scope.
Local Open Scope list_scope.
Local Open Scope Z_scope.

(** ** Documents *)

(** The store-assigned identifier ([ObjectID]). *)
Definition ObjectID := N.

(** A document as the store holds it: the inserted object and its [_id]. *)
Record Stored (A : Type) : Type := mkStored { _id : ObjectID; doc : A }.
Arguments mkStored {A} _ _.
Arguments _id {A} _.
Arguments doc {A} _.

(** A bay is the two-element array [[start, end]]. *)
Definition Bay : Type := (Q * Q)%type.

Record ItemDoc : Type := mkItem {
  item_name : string;
  item_aisle : string;
  item_bay : string;
  item_price : Q;
  item_xVal : Z;
  item_yVal : Z
}.

Record AisleDoc : Type := mkAisle {
  aisle_number : Z;
  aisle_name : string;
  aisle_bays : list Bay;
  aisle_xStartVal : Z;
  aisle_xEndVal : Z;
  aisle_yStartVal : Z;
  aisle_yEndVal : Z
}.

Record CheckoutDoc : Type := mkCheckout {
  co_lane : Z;
  co_xStartVal : Z;
  co_xEndVal : Z;
  co_yStartVal : Z;
  co_yEndVal : Z
}.

Record StoreMapDoc : Type := mkStoreMap {
  map_title : string;
  map_description : string;
  map_width : Z;
  map_length : Z;
  map_aisle : list (Stored AisleDoc);
  map_checkout : list (Stored CheckoutDoc)
}.

Record InventoryDoc : Type := mkInventory {
  inv_id : Z;
  inv_title : string;
  inv_items : list (Stored ItemDoc)
}.

(** ** The database *)

Record Db : Type := mkDb {
  db_Item : list (Stored ItemDoc);
  db_Aisles : list (Stored AisleDoc);
  db_Checkout : list (Stored CheckoutDoc);
  db_Map : list (Stored StoreMapDoc);
  db_Inventory : list (Stored InventoryDoc);
  db_next : ObjectID
}.

Definition empty_db : Db := mkDb [] [] [] [] [] 0%N.

(** [db.collection(name)]: a handle that reads and replaces one collection. *)
Record Collection (A : Type) : Type := mkCollection {
  coll_get : Db -> list (Stored A);
  coll_set : list (Stored A) -> Db -> Db
}.
Arguments coll_get {A} _ _.
Arguments coll_set {A} _ _ _.

Definition Item : Collection ItemDoc :=
  mkCollection ItemDoc db_Item
    (fun l d => mkDb l (db_Aisles d) (db_Checkout d) (db_Map d) (db_Inventory d) (db_next d)).
Definition Aisles : Collection AisleDoc :=
  mkCollection AisleDoc db_Aisles
    (fun l d => mkDb (db_Item d) l (db_Checkout d) (db_Map d) (db_Inventory d) (db_next d)).
Definition Checkout : Collection CheckoutDoc :=
  mkCollection CheckoutDoc db_Checkout
    (fun l d => mkDb (db_Item d) (db_Aisles d) l (db_Map d) (db_Inventory d) (db_next d)).
Definition Map : Collection StoreMapDoc :=
  mkCollection StoreMapDoc db_Map
    (fun l d => mkDb (db_Item d) (db_Aisles d) (db_Checkout d) l (db_Inventory d) (db_next d)).
Definition Inventory : Collection InventoryDoc :=
  mkCollection InventoryDoc db_Inventory
    (fun l d => mkDb (db_Item d) (db_Aisles d) (db_Checkout d) (db_Map d) l (db_next d)).

Definition bump (d : Db) : Db :=
  mkDb (db_Item d) (db_Aisles d) (db_Checkout d) (db_Map d) (db_Inventory d)
       (N.succ (db_next d)).

(** ** Resolver computations *)

(** What a resolver can raise: an [Error] the code throws itself, and the
    two errors the engine raises: [TypeError] on reading a property of
    [null], [ReferenceError] on an identifier that no enclosing scope
    binds. *)
Inductive Exn : Type :=
| Error (message : string)
| TypeError (property : string)
| ReferenceError (name : string).

Definition M (A : Type) : Type := Db -> (Exn + A) * Db.

Definition ret {A} (a : A) : M A := fun d => (inr a, d).
Definition throw {A} (e : Exn) : M A := fun d => (inl e, d).
Definition bind {A B} (c : M A) (k : A -> M B) : M B :=
  fun d => match c d with
           | (inl e, d') => (inl e, d')
           | (inr a, d') => k a d'
           end.

Declare Scope resolver_scope.
Delimit Scope resolver_scope with resolver.
Notation "x <- c ;; k" := (bind c (fun x => k))
  (at level 61, c at next level, right associativity) : resolver_scope.
Notation "c ;;; k" := (bind c (fun _ => k))
  (at level 61, right associativity) : resolver_scope.
Local Open Scope resolver_scope.

(** [collection.find().toArray()] *)
Definition find {A} (c : Collection A) : M (list (Stored A)) :=
  fun d => (inr (coll_get c d), d).

(** [collection.findOne(filter)]: the first match, or [null]. *)
Definition findOne {A} (c : Collection A) (filter : Stored A -> bool)
  : M (option (Stored A)) :=
  fun d => (inr (List.find filter (coll_get c d)), d).

(** [collection.insert(doc)], then [result.ops[0]]: the document with its
    [_id] populated. *)
Definition insert {A} (c : Collection A) (newDoc : A) : M (Stored A) :=
  fun d =>
    let s := mkStored (db_next d) newDoc in
    (inr s, bump (coll_set c (coll_get c d ++ [s]) d)).

(** [array.forEach(callback)] with a callback that may throw. *)
Fixpoint forEach {A} (l : list A) (callback : A -> M unit) : M unit :=
  match l with
  | [] => ret tt
  | a :: l' => callback a ;;; forEach l' callback
  end.

(** The filter [{ _id: ObjectID(id) }], once [ObjectID(id)] has given the
    identifier. *)
Definition by_id {A} (id : ObjectID) (s : Stored A) : bool := N.eqb (_id s) id.

(** ** Aisle operations *)

(** The values [i] of [for (let i = 0; i <= width; i++)]. *)
Definition loop_indices (width : Z) : list Z :=
  List.map Z.of_nat (seq 0 (Z.to_nat (width + 1))).

(** [i == q] for an integer [i] and a number [q]. *)
Definition num_eq (i : Z) (q : Q) : bool := Qeq_bool (inject_Z i) q.

(** One iteration of the loop body of [createAisle]: the three-way
    [if / else if / else if] that pushes at most one bay. *)
Definition bayStep (xStartVal xEndVal : Z) (horizonBayLength : Q)
    (bayCoordinates : list Bay) (i : Z) : list Bay :=
  if num_eq i horizonBayLength then
    let horizonFirstBayEnd := inject_Z (xStartVal + (i - 1)) in
    bayCoordinates ++ [(inject_Z xStartVal, horizonFirstBayEnd)]
  else if num_eq i (horizonBayLength * 2) then
    let horizonSecondBay := (inject_Z xStartVal + horizonBayLength)%Q in
    let horizonSecondBayEnd := inject_Z (xStartVal + (i - 1)) in
    bayCoordinates ++ [(horizonSecondBay, horizonSecondBayEnd)]
  else if num_eq i (horizonBayLength * 3) then
    let horizonThirdBay := (inject_Z xStartVal + horizonBayLength * 2)%Q in
    let horizonThirdBayEnd := inject_Z xEndVal in
    bayCoordinates ++ [(horizonThirdBay, horizonThirdBayEnd)]
  else bayCoordinates.

(** The array [bayCoordinates] when control leaves the [if (width > length)]
    statement of [createAisle]: filled by the loop in the first branch,
    still empty in the [else] branch. *)
Definition bayCoordinates (xStartVal xEndVal yStartVal yEndVal : Z) : list Bay :=
  let width := (xEndVal - xStartVal) + 1 in
  let length := (yEndVal - yStartVal) + 1 in
  let horizonBayLength := (inject_Z width / 3)%Q in
  let vertBayLength := (inject_Z length / 3)%Q in
  if width >? length then
    fold_left (bayStep xStartVal xEndVal horizonBayLength) (loop_indices width) []
  else [].

(** [createAisle].  The object [newAisle], the [insert] and the [return]
    all sit inside the [else] block: when [width > length] the function
    runs the loop and falls off its end, returning [undefined] ([None])
    without touching the store. *)
Definition createAisle (number : Z) (name : string)
    (xStartVal xEndVal yStartVal yEndVal : Z) : M (option (Stored AisleDoc)) :=
  let width := (xEndVal - xStartVal) + 1 in
  let length := (yEndVal - yStartVal) + 1 in
  let bays := bayCoordinates xStartVal xEndVal yStartVal yEndVal in
  if width >? length then
    ret None
  else
    let newAisle :=
      mkAisle number name bays xStartVal xEndVal yStartVal yEndVal in
    result <- insert Aisles newAisle ;;
    ret (Some result).

Definition getAisle (id : ObjectID) : M (option (Stored AisleDoc)) :=
  findOne Aisles (by_id id).

(** ** Checkout operations *)

Definition createCheckout (lane xStartVal xEndVal yStartVal yEndVal : Z)
  : M (Stored CheckoutDoc) :=
  let newLane := mkCheckout lane xStartVal xEndVal yStartVal yEndVal in
  result <- insert Checkout newLane ;;
  ret result.

(** ** StoreMap operations *)

Definition validateRange (x y min max : Z) : bool := (x >=? min) && (y <=? max).

Definition aisle_in_map (width length : Z) (aisle : Stored AisleDoc) : bool :=
  validateRange (aisle_xStartVal (doc aisle)) (aisle_xEndVal (doc aisle)) 0 width
  && validateRange (aisle_yStartVal (doc aisle)) (aisle_yEndVal (doc aisle)) 0 length.

Definition lane_in_map (width length : Z) (cLane : Stored CheckoutDoc) : bool :=
  validateRange (co_xStartVal (doc cLane)) (co_xEndVal (doc cLane)) 0 width
  && validateRange (co_yStartVal (doc cLane)) (co_yEndVal (doc cLane)) 0 length.

Definition msg_exists : string := "Map already exists".
Definition msg_dimensions : string :=
  "Invalid map dimensions. Must have an area of at least 1 unit".
Definition msg_aisle : string := "Aisle dimensions exceed map dimensions".
Definition msg_lane : string := "Checkout lane dimensions exceed map dimensions".
Definition msg_not_found : string := "Map not found".

Definition createMap (title description : string) (width length : Z)
  : M (Stored StoreMapDoc) :=
  existing <- findOne Map (fun m => String.eqb (map_title (doc m)) title) ;;
  match existing with
  | Some _ => throw (Error msg_exists)
  | None =>
    if negb ((width >? 0) && (length >? 0)) then throw (Error msg_dimensions)
    else
      aisles <- find Aisles ;;
      checkoutLanes <- find Checkout ;;
      forEach aisles (fun aisle =>
        if negb (aisle_in_map width length aisle)
        then throw (Error msg_aisle) else ret tt) ;;;
      forEach checkoutLanes (fun cLane =>
        if negb (lane_in_map width length cLane)
        then throw (Error msg_lane) else ret tt) ;;;
      let newMap :=
        mkStoreMap title description width length aisles checkoutLanes in
      result <- insert Map newMap ;;
      ret result
  end.

Definition getMap (id : ObjectID) : M (option (Stored StoreMapDoc)) :=
  findOne Map (by_id id).

(** The identifiers a resolver body reads without declaring them are looked
    up in the enclosing scopes.  [Scope] gives the numeric bindings found
    there; an unbound identifier raises [ReferenceError]. *)
Definition Scope := string -> option Z.

Definition identifier (scope : Scope) (x : string) : M Z :=
  match scope x with
  | Some v => ret v
  | None => throw (ReferenceError x)
  end.

(** Neither server file declares [width] or [length] outside [createMap]
    and [createAisle], and Node's global object has neither. *)
Definition file_scope : Scope := fun _ => None.

(** Iterations that suffice for a loop [for (v = 0; v < bound; v++)] whose
    bound is the identifier [x]. *)
Definition iterations (scope : Scope) (x : string) : nat :=
  match scope x with
  | Some v => Z.to_nat v
  | None => O
  end.

(** The inner loop [for (let y = 0; y < length; y++) data.push([x,y])];
    [length] is read at each test.  [fuel] counts the iterations left. *)
Fixpoint inner_loop (scope : Scope) (x : Z) (fuel : nat) (y : Z)
    (data : list (Z * Z)) : M (list (Z * Z)) :=
  length <- identifier scope "length" ;;
  if y <? length then
    match fuel with
    | O => ret data
    | S fuel' => inner_loop scope x fuel' (y + 1) (data ++ [(x, y)])
    end
  else ret data.

(** The outer loop [for (let x = 0; x < width; x++)]. *)
Fixpoint outer_loop (scope : Scope) (fuel : nat) (x : Z)
    (data : list (Z * Z)) : M (list (Z * Z)) :=
  width <- identifier scope "width" ;;
  if x <? width then
    match fuel with
    | O => ret data
    | S fuel' =>
      data' <- inner_loop scope x (iterations scope "length") 0 data ;;
      outer_loop scope fuel' (x + 1) data'
    end
  else ret data.

(** [getAllMapCoords].  The looked-up map is only tested for existence; it
    is bound to no variable, and the loop bounds are the free identifiers
    [width] and [length]. *)
Definition getAllMapCoords (scope : Scope) (id : ObjectID) : M (list (Z * Z)) :=
  found <- findOne Map (by_id id) ;;
  match found with
  | None => throw (Error msg_not_found)
  | Some _ =>
    let data := [] in
    outer_loop scope (iterations scope "width") 0 data
  end.

(** ** Item and Inventory operations *)

Definition getItem (id : ObjectID) : M (option (Stored ItemDoc)) :=
  findOne Item (by_id id).

(** [getInventory]: [inventory.items] is read without a test of
    [inventory]; on [null] the engine raises a [TypeError]. *)
Definition getInventory (id : Z) : M (list (Stored ItemDoc)) :=
  inventory <- findOne Inventory (fun i => inv_id (doc i) =? id) ;;
  match inventory with
  | None => throw (TypeError "items")
  | Some inventory => let items := inv_items (doc inventory) in ret items
  end.

Definition createInventory (id : Z) (title : string) : M (Stored InventoryDoc) :=
  currItems <- find Item ;;
  let newInventory := mkInventory id title currItems in
  result <- insert Inventory newInventory ;;
  ret result.

(** [createItem] of the second server file (the first one declares the
    mutation in its schema and has no resolver for it).  Its body is
    [db.collection('Aisles').insert(newAisle)]: the six arguments are not
    used, and [newAisle] is an identifier no scope of the file binds.
    [scope] gives the document bound to an identifier, if any. *)
Definition createItem (scope : string -> option AisleDoc)
    (name aisle bay : string) (price : Q) (xVal yVal : Z)
  : M (Stored AisleDoc) :=
  match scope "newAisle" with
  | None => throw (ReferenceError "newAisle")
  | Some newAisle =>
    result <- insert Aisles newAisle ;;
    ret result
  end.

Definition no_documents : string -> option AisleDoc := fun _ => None.

(** ** Identifier shaping *)

(** The values the fields [_id] and [id] of a parent object can hold. *)
Inductive IdValue : Type :=
| Undefined
| Oid (o : ObjectID)
| Int (n : Z).

(** JavaScript truthiness: an object is truthy, [undefined] and [0] are not. *)
Definition truthy (v : IdValue) : bool :=
  match v with
  | Undefined => false
  | Oid _ => true
  | Int n => negb (n =? 0)
  end.

(** [a || b] *)
Definition or_else (a b : IdValue) : IdValue := if truthy a then a else b.

(** The two properties a field resolver destructures from its parent. *)
Record Parent : Type := mkParent { parent__id : IdValue; parent_id : IdValue }.

(** Parents read from the store.  Only an Inventory has an [id] property. *)
Definition parent_of_item (i : Stored ItemDoc) : Parent :=
  mkParent (Oid (_id i)) Undefined.
Definition parent_of_aisle (a : Stored AisleDoc) : Parent :=
  mkParent (Oid (_id a)) Undefined.
Definition parent_of_map (m : Stored StoreMapDoc) : Parent :=
  mkParent (Oid (_id m)) Undefined.
Definition parent_of_inventory (i : Stored InventoryDoc) : Parent :=
  mkParent (Oid (_id i)) (Int (inv_id (doc i))).

(** [id: ({ _id, id }) => _id || id], declared for three types. *)
Definition Aisle_id (p : Parent) : IdValue := or_else (parent__id p) (parent_id p).
Definition Item_id (p : Parent) : IdValue := or_else (parent__id p) (parent_id p).
Definition StoreMap_id (p : Parent) : IdValue := or_else (parent__id p) (parent_id p).

(** [resolvers] has no entry for [Inventory]: its [id] field is resolved by
    the default field resolver, the property [id] of the parent. *)
Definition Inventory_id (p : Parent) : IdValue := parent_id p.


(** ** Statements about the bays *)

(** What one iteration of the bay loop pushes. *)
Definition pushed (xStartVal xEndVal : Z) (horizonBayLength : Q) (i : Z)
  : list Bay :=
  bayStep xStartVal xEndVal horizonBayLength [] i.

Module BaySpec.

(** The three ranges the horizontal subdivision is to produce. *)
Definition three_bays (start stop bayLen : Z) : list (Z * Z) :=
  [ (start, start + bayLen - 1);
    (start + bayLen, start + 2 * bayLen - 1);
    (start + 2 * bayLen, stop) ].

(** A computed bay denotes an integer range. *)
Definition bay_eq (b : Bay) (r : Z * Z) : Prop :=
  (fst b == inject_Z (fst r))%Q /\ (snd b == inject_Z (snd r))%Q.

(** [ranges] tile [lo..hi]: the first starts at [lo], each next one starts
    right after the previous end, the last ends at [hi]. *)
Fixpoint tiles (lo hi : Z) (ranges : list (Z * Z)) : Prop :=
  match ranges with
  | [] => lo = hi + 1
  | (a, b) :: rest => a = lo /\ tiles (b + 1) hi rest
  end.

Definition contains (x : Z) (r : Z * Z) : bool := (fst r <=? x) && (x <=? snd r).

(** How many of the ranges hold [x]. *)
Definition holders (x : Z) (ranges : list (Z * Z)) : nat :=
  List.length (filter (contains x) ranges).

(** The bays of an aisle partition its x-span into three ranges of length
    [width/3]. *)
Definition partitions_x (xStartVal xEndVal yStartVal yEndVal : Z) : Prop :=
  let width := (xEndVal - xStartVal) + 1 in
  let bayLen := width / 3 in
  let ranges := three_bays xStartVal xEndVal bayLen in
  Forall2 bay_eq (bayCoordinates xStartVal xEndVal yStartVal yEndVal) ranges
  /\ tiles xStartVal xEndVal ranges
  /\ Forall (fun r => snd r - fst r + 1 = bayLen) ranges
  /\ forall x, xStartVal <= x <= xEndVal -> holders x ranges = 1%nat.

(** The same along the y-axis, for the bays of a persisted aisle. *)
Definition vertical_bays (a : AisleDoc) : Prop :=
  let length := (aisle_yEndVal a - aisle_yStartVal a) + 1 in
  Forall2 bay_eq (aisle_bays a)
    (three_bays (aisle_yStartVal a) (aisle_yEndVal a) (length / 3)).

End BaySpec.

(** ** Statements about the map validation *)

Module MapSpec.

(** The range check in words: start >= 0 and end <= the map dimension. *)
Definition in_range (start stop dimension : Z) : Prop :=
  0 <= start /\ stop <= dimension.

Definition aisle_fits (width length : Z) (a : Stored AisleDoc) : Prop :=
  in_range (aisle_xStartVal (doc a)) (aisle_xEndVal (doc a)) width
  /\ in_range (aisle_yStartVal (doc a)) (aisle_yEndVal (doc a)) length.

Definition lane_fits (width length : Z) (c : Stored CheckoutDoc) : Prop :=
  in_range (co_xStartVal (doc c)) (co_xEndVal (doc c)) width
  /\ in_range (co_yStartVal (doc c)) (co_yEndVal (doc c)) length.

(** The call passes the title-uniqueness and dimension checks. *)
Definition passes_checks (title : string) (width length : Z) (db : Db) : Prop :=
  (forall m, In m (db_Map db) -> map_title (doc m) <> title)
  /\ 0 < width /\ 0 < length.

End MapSpec.

(** ** Sample stores *)

(** The store a resolver leaves. *)
Definition after {A} (c : M A) (db : Db) : Db := snd (c db).

(** One aisle inside a 5 x 5 map and one checkout lane that leaves it. *)
Definition store_lane_outside : Db :=
  after (createCheckout 1 0 10 0 5)
    (after (createAisle 1 "Dairy" 0 2 0 5) empty_db).

(** One aisle and one checkout lane, both leaving a 5 x 5 map. *)
Definition store_both_outside : Db :=
  after (createCheckout 1 0 10 0 5)
    (after (createAisle 1 "Dairy" 0 5 0 10) empty_db).

(** An aisle whose x-range starts at 10 and ends at 3. *)
Definition store_reversed_aisle : Db :=
  after (createAisle 1 "Dairy" 10 3 0 2) empty_db.

(** A store holding one 2 x 2 map. *)
Definition store_square_map : Db :=
  after (createMap "Main Store" "Ground floor" 2 2) empty_db.

Definition itemA : ItemDoc := mkItem "Milk" "Dairy" "1" (5 # 2) 1 1.
Definition itemB : ItemDoc := mkItem "Bread" "Bakery" "2" (3 # 1) 4 2.
Definition itemC : ItemDoc := mkItem "Salt" "Spices" "3" (1 # 1) 7 3.

(** Items A and B inserted into the empty store. *)
Definition store_two_items : Db :=
  after (insert Item itemB) (after (insert Item itemA) empty_db).

(** Every item of the store carries an identifier the store has already
    issued. *)
Definition issued_ids (db : Db) : Prop :=
  Forall (fun i => (_id i < db_next db)%N) (db_Item db).

(** ** Statements about identifiers *)

(** The store identifiers of the documents of all five collections. *)
Definition all_ids (db : Db) : list ObjectID :=
  List.map _id (db_Item db) ++ List.map _id (db_Aisles db)
  ++ List.map _id (db_Checkout db) ++ List.map _id (db_Map db)
  ++ List.map _id (db_Inventory db).

(** No identifier is used twice, and each one was issued by the store. *)
Definition ids_ok (db : Db) : Prop :=
  NoDup (all_ids db) /\ Forall (fun i => (i < db_next db)%N) (all_ids db).

(** ** Identifiers sent by a client *)

(** A query receives its [id] as the string of a GraphQL [ID!] and hands it
    to [ObjectID(id)] while it builds the filter, before the store is
    asked.  The constructor is the driver's, not the repository's: it is a
    parameter here, and gives the identifier a string denotes or the
    exception it throws on a malformed one. *)
Definition Constructor : Type := string -> Exn + ObjectID.

Definition with_ObjectID {A} (ctor : Constructor) (id : string)
    (resolver : ObjectID -> M A) : M A :=
  match ctor id with
  | inl e => throw e
  | inr o => resolver o
  end.

Definition getItem_request (ctor : Constructor) (id : string) :=
  with_ObjectID ctor id getItem.
Definition getAisle_request (ctor : Constructor) (id : string) :=
  with_ObjectID ctor id getAisle.
Definition getMap_request (ctor : Constructor) (id : string) :=
  with_ObjectID ctor id getMap.
Definition getAllMapCoords_request (ctor : Constructor) (scope : Scope)
    (id : string) :=
  with_ObjectID ctor id (getAllMapCoords scope).

(** A constructor for the examples: 24 hexadecimal digits denote their
    value, any other string is refused. *)
Definition msg_objectid : string :=
  "Argument passed in must be a single String of 12 bytes or a string of 24 hex characters".

Definition hex_digit (c : ascii) : option N :=
  let n := N_of_ascii c in
  if ((48 <=? n) && (n <=? 57))%N then Some (n - 48)%N
  else if ((97 <=? n) && (n <=? 102))%N then Some (n - 87)%N
  else if ((65 <=? n) && (n <=? 70))%N then Some (n - 55)%N
  else None.

Fixpoint hex_value (s : string) (acc : N) : option N :=
  match s with
  | EmptyString => Some acc
  | String c s' =>
    match hex_digit c with
    | Some d => hex_value s' (16 * acc + d)%N
    | None => None
    end
  end.

Definition hex_ObjectID : Constructor := fun id =>
  if (String.length id =? 24)%nat then
    match hex_value id 0%N with
    | Some o => inr o
    | None => inl (Error msg_objectid)
    end
  else inl (Error msg_objectid).

(** No stored map has this title. *)
Definition title_unused (title : string) (db : Db) : Prop :=
  forall m, In m (db_Map db) -> map_title (doc m) <> title.

(** * Properties *)

(** ** Bay subdivision *)

Section BayLoop.

Variables xStartVal xEndVal : Z.
Variable horizonBayLength : Q.

Let step := bayStep xStartVal xEndVal horizonBayLength.

Lemma bayStep_pushed acc i :
  step acc i = acc ++ pushed xStartVal xEndVal horizonBayLength i.
Proof.
  unfold step, pushed, bayStep.
  repeat match goal with |- context [if ?c then _ else _] => destruct c end;
    cbn; auto using app_nil_r.
Qed.

Lemma bayLoop_flat_map l acc :
  fold_left step l acc
  = acc ++ flat_map (pushed xStartVal xEndVal horizonBayLength) l.
Proof.
  revert acc; induction l as [|i l IH]; intros acc; cbn.
  - now rewrite app_nil_r.
  - rewrite IH, bayStep_pushed. now rewrite <- app_assoc.
Qed.

End BayLoop.

Lemma num_eq_integer i q b : (q == inject_Z b)%Q -> num_eq i q = (i =? b).
Proof.
  intros Hq. unfold num_eq.
  destruct (Z.eqb_spec i b) as [->|Hne].
  - apply Qeq_bool_iff. now symmetry.
  - destruct (Qeq_bool (inject_Z i) q) eqn:E; auto.
    apply Qeq_bool_iff in E. rewrite Hq in E.
    rewrite inject_Z_injective in E. contradiction.
Qed.

Lemma third_of_triple b : (inject_Z (3 * b) / 3 == inject_Z b)%Q.
Proof.
  unfold Qeq, Qdiv, Qmult, Qinv, inject_Z.
  cbn [Qnum Qden Z.sgn]. change (Z.pos (1 * 3)) with 3.
  change (Z.pos 1) with 1. lia.
Qed.

Section HorizontalBays.

Variables xStartVal xEndVal : Z.
Variable horizonBayLength : Q.
Variable bayLen : Z.
Hypothesis bayLen_value : (horizonBayLength == inject_Z bayLen)%Q.
Hypothesis bayLen_pos : 0 < bayLen.

Let push := pushed xStartVal xEndVal horizonBayLength.

Lemma twice_bayLen : (horizonBayLength * 2 == inject_Z (2 * bayLen))%Q.
Proof. rewrite bayLen_value, inject_Z_mult. apply Qmult_comm. Qed.

Lemma thrice_bayLen : (horizonBayLength * 3 == inject_Z (3 * bayLen))%Q.
Proof. rewrite bayLen_value, inject_Z_mult. apply Qmult_comm. Qed.

(** The loop pushes at [i = bayLen], [2 * bayLen] and [3 * bayLen] only. *)
Lemma pushed_cases i :
  push i =
    if i =? bayLen then
      [(inject_Z xStartVal, inject_Z (xStartVal + (i - 1)))]
    else if i =? 2 * bayLen then
      [((inject_Z xStartVal + horizonBayLength)%Q, inject_Z (xStartVal + (i - 1)))]
    else if i =? 3 * bayLen then
      [((inject_Z xStartVal + horizonBayLength * 2)%Q, inject_Z xEndVal)]
    else [].
Proof.
  unfold push, pushed, bayStep.
  rewrite (num_eq_integer i _ bayLen bayLen_value).
  rewrite (num_eq_integer i _ (2 * bayLen) twice_bayLen).
  rewrite (num_eq_integer i _ (3 * bayLen) thrice_bayLen).
  reflexivity.
Qed.

Lemma quiet_range (s k : nat) :
  (forall j, (s <= j < s + k)%nat ->
             Z.of_nat j <> bayLen /\ Z.of_nat j <> 2 * bayLen
             /\ Z.of_nat j <> 3 * bayLen) ->
  flat_map push (List.map Z.of_nat (seq s k)) = [].
Proof.
  revert s; induction k as [|k IH]; intros s H; cbn [seq List.map flat_map].
  - reflexivity.
  - rewrite IH by (intros j Hj; apply H; lia).
    rewrite pushed_cases.
    destruct (H s ltac:(lia)) as (H1 & H2 & H3).
    apply Z.eqb_neq in H1, H2, H3. now rewrite H1, H2, H3.
Qed.

Lemma pushed_run :
  flat_map push (loop_indices (3 * bayLen)) =
    [ (inject_Z xStartVal, inject_Z (xStartVal + (bayLen - 1)));
      ((inject_Z xStartVal + horizonBayLength)%Q,
       inject_Z (xStartVal + (2 * bayLen - 1)));
      ((inject_Z xStartVal + horizonBayLength * 2)%Q, inject_Z xEndVal) ].
Proof.
  unfold loop_indices.
  set (n := Z.to_nat bayLen).
  assert (Hn : bayLen = Z.of_nat n) by (unfold n; lia).
  assert (Hpos : (0 < n)%nat) by lia.
  replace (Z.to_nat (3 * bayLen + 1))
    with (n + (1 + ((n - 1) + (1 + ((n - 1) + 1)))))%nat by lia.
  rewrite !seq_app, !map_app, !flat_map_app.
  cbn [seq List.map flat_map app].
  rewrite !quiet_range by (intros j Hj; lia).
  rewrite !pushed_cases.
  repeat match goal with
         | |- context [?a =? ?b] =>
           first [ replace (a =? b) with true by (symmetry; apply Z.eqb_eq; lia)
                 | replace (a =? b) with false by (symmetry; apply Z.eqb_neq; lia) ]
         end.
  cbn [app].
  repeat f_equal; lia.
Qed.

End HorizontalBays.

(** The loop on x in 0..8, y in 0..2, with the numbers in lowest terms. *)
Example bays_of_wide_aisle :
  List.map (fun b => (Qred (fst b), Qred (snd b))) (bayCoordinates 0 8 0 2)
  = [(0 # 1, 2 # 1); (3 # 1, 5 # 1); (6 # 1, 8 # 1)]%Q.
Proof. reflexivity. Qed.

(** A negative width, here -3 against the length -7: the loop does not run. *)
Example bays_of_negative_width : bayCoordinates 0 (-4) 0 (-8) = [].
Proof. reflexivity. Qed.

Lemma holders_three_bays start stop bayLen x :
  0 < bayLen -> stop = start + 3 * bayLen - 1 -> start <= x <= stop ->
  BaySpec.holders x (BaySpec.three_bays start stop bayLen) = 1%nat.
Proof.
  intros Hpos Hstop Hx.
  unfold BaySpec.holders, BaySpec.three_bays, BaySpec.contains.
  cbn [filter fst snd].
  repeat match goal with
         | |- context [?a <=? ?b] => destruct (Z.leb_spec a b)
         end; cbn; lia.
Qed.

(** C1 (amended): when the width exceeds the length, is a multiple of 3 and
    is positive, the bays computed by [createAisle] are the three ranges
    [[xStartVal, xStartVal + bayLen - 1]],
    [[xStartVal + bayLen, xStartVal + 2*bayLen - 1]] and
    [[xStartVal + 2*bayLen, xEndVal]] with [bayLen = width/3]; they tile
    [[xStartVal, xEndVal]], each has length [bayLen], and every integer of
    the span lies in exactly one of them. *)
Theorem horizontal_bays_partition (xStartVal xEndVal yStartVal yEndVal : Z) :
  let width := (xEndVal - xStartVal) + 1 in
  let length := (yEndVal - yStartVal) + 1 in
  width > length -> (3 | width) -> 0 < width ->
  BaySpec.partitions_x xStartVal xEndVal yStartVal yEndVal.
Proof.
  intros width length Hgt [b Hb] Hpos.
  assert (Hw : width = 3 * b) by lia.
  assert (Hbpos : 0 < b) by lia.
  unfold BaySpec.partitions_x. fold width.
  replace (width / 3) with b by (rewrite Hw, Z.mul_comm; now rewrite Z.div_mul).
  repeat split.
  - unfold bayCoordinates. fold width; fold length.
    replace (width >? length) with true by (symmetry; apply Z.gtb_lt; lia).
    rewrite bayLoop_flat_map; cbn [app]. rewrite Hw.
    pose proof (third_of_triple b) as Hq.
    rewrite (pushed_run xStartVal xEndVal _ b Hq Hbpos).
    pose proof (twice_bayLen _ b Hq) as Hq2.
    unfold BaySpec.three_bays.
    repeat constructor; cbn [fst snd];
      rewrite ?Hq2, ?Hq, <- ?inject_Z_plus;
      try reflexivity; apply inject_Z_injective; lia.
  - cbn. lia.
  - cbn. lia.
  - unfold BaySpec.three_bays. repeat constructor; cbn [fst snd]; lia.
  - intros x Hx. apply holders_three_bays; lia.
Qed.

Lemma horizontal_bays_partition_witness : BaySpec.partitions_x 0 8 0 2.
Proof.
  apply (horizontal_bays_partition 0 8 0 2); cbn.
  - lia.
  - exists 3. reflexivity.
  - lia.
Defined.

(** C1, as worded, fails on an aisle of width 0 (and on negative widths):
    the width exceeds the length and is a multiple of 3, yet [i = 0] meets
    the first test of the loop body only, so a single bay is computed
    instead of three. *)
Lemma horizontal_bays_empty_span :
  let xStartVal := 0 in
  let xEndVal := -1 in
  let yStartVal := 0 in
  let yEndVal := -2 in
  let width := (xEndVal - xStartVal) + 1 in
  let length := (yEndVal - yStartVal) + 1 in
  width > length /\ (3 | width)
  /\ bayCoordinates xStartVal xEndVal yStartVal yEndVal
     = [(inject_Z 0, inject_Z (-1))]
  /\ ~ BaySpec.partitions_x xStartVal xEndVal yStartVal yEndVal.
Proof.
  cbv zeta. split; [cbn; lia|]. split; [exists 0; reflexivity|].
  split; [reflexivity|].
  intros [Hc _]. vm_compute in Hc.
  inversion Hc as [|? ? ? ? _ Hrest]; subst. inversion Hrest.
Qed.

(** ** createAisle *)

Lemma createAisle_run number name xStartVal xEndVal yStartVal yEndVal db :
  createAisle number name xStartVal xEndVal yStartVal yEndVal db =
    if (xEndVal - xStartVal) + 1 >? (yEndVal - yStartVal) + 1 then
      (inr None, db)
    else
      let s := mkStored (db_next db)
                 (mkAisle number name [] xStartVal xEndVal yStartVal yEndVal) in
      (inr (Some s), bump (coll_set Aisles (db_Aisles db ++ [s]) db)).
Proof.
  unfold createAisle, bayCoordinates.
  destruct (_ >? _); reflexivity.
Qed.

(** C2 (the code departs from the claim): on an aisle that is wider than it
    is long, here x in 0..8 and y in 0..2, [createAisle] persists nothing
    and returns [undefined]. *)
Theorem createAisle_wide_not_persisted (number : Z) (name : string) (db : Db) :
  createAisle number name 0 8 0 2 db = (inr None, db).
Proof. now rewrite createAisle_run. Qed.

(** The sibling path: an aisle that is not wider than it is long is
    persisted and returned. *)
Lemma createAisle_tall_persisted number name xStartVal xEndVal yStartVal yEndVal db :
  (xEndVal - xStartVal) + 1 <= (yEndVal - yStartVal) + 1 ->
  exists s,
    createAisle number name xStartVal xEndVal yStartVal yEndVal db
    = (inr (Some s), bump (coll_set Aisles (db_Aisles db ++ [s]) db))
    /\ _id s = db_next db
    /\ doc s = mkAisle number name [] xStartVal xEndVal yStartVal yEndVal.
Proof.
  intros Hle. rewrite createAisle_run.
  rewrite Z.gtb_ltb.
  replace (_ <? _) with false by (symmetry; apply Z.ltb_ge; lia).
  eexists; repeat split.
Qed.

(** C3 (the code departs from the claim): on an aisle that is longer than
    it is wide, here x in 0..2 and y in 0..8, the persisted aisle has no
    bays at all, where the claim has [[0,2]], [[3,5]], [[6,8]]. *)
Theorem createAisle_tall_has_no_bays (number : Z) (name : string) (db : Db) :
  exists s,
    fst (createAisle number name 0 2 0 8 db) = inr (Some s)
    /\ In s (db_Aisles (after (createAisle number name 0 2 0 8) db))
    /\ aisle_bays (doc s) = []
    /\ BaySpec.three_bays 0 8 ((8 - 0 + 1) / 3) = [(0, 2); (3, 5); (6, 8)]
    /\ ~ BaySpec.vertical_bays (doc s).
Proof.
  unfold after. rewrite createAisle_run. cbn -[BaySpec.vertical_bays].
  eexists; repeat split.
  - apply in_or_app; right; left; reflexivity.
  - unfold BaySpec.vertical_bays; cbn. intros H; inversion H.
Qed.

(** ** createMap *)

Lemma validateRange_spec x y min max :
  validateRange x y min max = true <-> min <= x /\ y <= max.
Proof.
  unfold validateRange. rewrite andb_true_iff, Z.geb_le, Z.leb_le. tauto.
Qed.

Lemma aisle_in_map_fits width length a :
  aisle_in_map width length a = true <-> MapSpec.aisle_fits width length a.
Proof.
  unfold aisle_in_map, MapSpec.aisle_fits, MapSpec.in_range.
  rewrite andb_true_iff, !validateRange_spec. tauto.
Qed.

Lemma lane_in_map_fits width length c :
  lane_in_map width length c = true <-> MapSpec.lane_fits width length c.
Proof.
  unfold lane_in_map, MapSpec.lane_fits, MapSpec.in_range.
  rewrite andb_true_iff, !validateRange_spec. tauto.
Qed.

(** A [forEach] whose callback throws on the first document that fails a
    test. *)
Lemma forEach_check {A} (ok : A -> bool) (e : Exn) (l : list A) (db : Db) :
  forEach l (fun a => if negb (ok a) then throw e else ret tt) db
  = if forallb ok l then (inr tt, db) else (inl e, db).
Proof.
  induction l as [|a l IH]; cbn [forEach forallb]; [reflexivity|].
  unfold bind at 1. destruct (ok a); cbn [negb andb].
  - unfold ret at 1. exact IH.
  - reflexivity.
Qed.

Lemma forallb_false_iff {A} (ok : A -> bool) (l : list A) :
  forallb ok l = false <-> exists a, In a l /\ ok a = false.
Proof.
  induction l as [|a l IH]; cbn.
  - split; [discriminate | intros (? & [] & _)].
  - rewrite andb_false_iff, IH. split.
    + intros [H|(b & Hb & Hok)]; eauto.
    + intros (b & [<-|Hb] & Hok); eauto.
Qed.

Lemma title_free title (maps : list (Stored StoreMapDoc)) :
  (forall m, In m maps -> map_title (doc m) <> title) ->
  List.find (fun m => String.eqb (map_title (doc m)) title) maps = None.
Proof.
  intros H. destruct (List.find _ maps) as [m|] eqn:E; [|reflexivity].
  apply find_some in E as [Hin Heq]. apply String.eqb_eq in Heq.
  now apply H in Hin.
Qed.

(** The whole of [createMap], check by check. *)
Lemma createMap_run title description width length db :
  createMap title description width length db =
    match List.find (fun m => String.eqb (map_title (doc m)) title) (db_Map db) with
    | Some _ => (inl (Error msg_exists), db)
    | None =>
      if negb ((width >? 0) && (length >? 0)) then (inl (Error msg_dimensions), db)
      else if negb (forallb (aisle_in_map width length) (db_Aisles db))
      then (inl (Error msg_aisle), db)
      else if negb (forallb (lane_in_map width length) (db_Checkout db))
      then (inl (Error msg_lane), db)
      else
        let s := mkStored (db_next db)
                   (mkStoreMap title description width length
                      (db_Aisles db) (db_Checkout db)) in
        (inr s, bump (coll_set Map (db_Map db ++ [s]) db))
    end.
Proof.
  unfold createMap. unfold bind at 1. unfold findOne at 1.
  cbn [coll_get Map].
  destruct (List.find _ (db_Map db)); [reflexivity|].
  destruct (negb _); [reflexivity|].
  unfold bind at 1. unfold find at 1.
  unfold bind at 1. unfold find at 1.
  unfold bind at 1. rewrite forEach_check. cbn [coll_get Aisles Checkout].
  destruct (forallb _ (db_Aisles db)); [|reflexivity]. cbn [negb].
  unfold bind at 1. rewrite forEach_check.
  destruct (forallb _ (db_Checkout db)); reflexivity.
Qed.

(** C5: for a call that passes the title and dimension checks, the aisles
    are validated first and the first violation aborts the call: a
    fetched aisle outside the range check makes the call fail with
    "Aisle dimensions exceed map dimensions"; when every aisle passes, a
    fetched checkout lane outside it makes the call fail with
    "Checkout lane dimensions exceed map dimensions"; and on any failure
    the store, its Map collection included, is unchanged. *)
Theorem createMap_validation (title description : string) (width length : Z)
    (db : Db) :
  MapSpec.passes_checks title width length db ->
  let r := createMap title description width length db in
  ((exists a, In a (db_Aisles db) /\ ~ MapSpec.aisle_fits width length a) ->
   fst r = inl (Error msg_aisle))
  /\ ((forall a, In a (db_Aisles db) -> MapSpec.aisle_fits width length a) ->
      (exists c, In c (db_Checkout db) /\ ~ MapSpec.lane_fits width length c) ->
      fst r = inl (Error msg_lane))
  /\ (forall e, fst r = inl e -> snd r = db /\ db_Map (snd r) = db_Map db).
Proof.
  intros (Htitle & Hw & Hl) r. subst r. rewrite createMap_run.
  rewrite (title_free _ _ Htitle).
  replace (width >? 0) with true by (symmetry; apply Z.gtb_lt; lia).
  replace (length >? 0) with true by (symmetry; apply Z.gtb_lt; lia).
  cbn [andb negb].
  repeat split.
  - intros (a & Hin & Hfit).
    assert (Hf : forallb (aisle_in_map width length) (db_Aisles db) = false).
    { apply forallb_false_iff. exists a; split; auto.
      apply not_true_is_false. now rewrite aisle_in_map_fits. }
    now rewrite Hf.
  - intros Hall (c & Hin & Hfit).
    assert (Ha : forallb (aisle_in_map width length) (db_Aisles db) = true).
    { apply forallb_forall. intros a Ha. apply aisle_in_map_fits; auto. }
    assert (Hf : forallb (lane_in_map width length) (db_Checkout db) = false).
    { apply forallb_false_iff. exists c; split; auto.
      apply not_true_is_false. now rewrite lane_in_map_fits. }
    now rewrite Ha, Hf.
  - destruct (forallb _ (db_Aisles db)), (forallb _ (db_Checkout db));
      cbn in *; congruence.
  - destruct (forallb _ (db_Aisles db)), (forallb _ (db_Checkout db));
      cbn in *; congruence.
Qed.

Lemma createMap_validation_witness :
  MapSpec.passes_checks "Main Store" 5 5 store_lane_outside
  /\ createMap "Main Store" "" 5 5 store_lane_outside
     = (inl (Error msg_lane), store_lane_outside).
Proof.
  assert (Hp : MapSpec.passes_checks "Main Store" 5 5 store_lane_outside).
  { split; [intros m []|split; lia]. }
  split; [exact Hp|].
  destruct (createMap_validation "Main Store" "" 5 5 store_lane_outside Hp)
    as (_ & Hlane & Hkeep).
  assert (Hres : fst (createMap "Main Store" "" 5 5 store_lane_outside)
                 = inl (Error msg_lane)).
  { apply Hlane.
    - intros a [<-|[]]. vm_compute. intuition discriminate.
    - eexists; split; [left; reflexivity|].
      vm_compute. intuition. }
  destruct (Hkeep _ Hres) as [Hdb _].
  rewrite (surjective_pairing (createMap _ _ _ _ _)).
  now rewrite Hres, Hdb.
Defined.

(** Aisles first: with an aisle and a checkout lane both outside the map,
    the call aborts on the aisle. *)
Example createMap_aisles_first :
  createMap "Main Store" "" 5 5 store_both_outside
  = (inl (Error msg_aisle), store_both_outside).
Proof. reflexivity. Qed.

(** C6: the range check compares the start with 0 and the end with the map
    dimension only.  An aisle stored with [xStartVal = 10], [xEndVal = 3]
    and y in 0..2 starts beyond the width of a 5 x 5 map, yet
    [xStartVal >= 0], [xEndVal <= width] and its y-bounds are valid:
    [createMap] raises no error and embeds the aisle. *)
Theorem createMap_accepts_start_beyond_width :
  exists (aisle : Stored AisleDoc) (m : Stored StoreMapDoc),
    In aisle (db_Aisles store_reversed_aisle)
    /\ aisle_xStartVal (doc aisle) > 5
    /\ aisle_xStartVal (doc aisle) > aisle_xEndVal (doc aisle)
    /\ MapSpec.aisle_fits 5 5 aisle
    /\ validateRange (aisle_xStartVal (doc aisle)) (aisle_xEndVal (doc aisle)) 0 5
       = true
    /\ fst (createMap "Main Store" "" 5 5 store_reversed_aisle) = inr m
    /\ In aisle (map_aisle (doc m)).
Proof.
  eexists; eexists. split; [left; reflexivity|].
  cbn. repeat split; try lia; try discriminate.
  now left.
Qed.

(** ** getAllMapCoords *)

Lemma getAllMapCoords_unbound id db m :
  List.find (by_id id) (db_Map db) = Some m ->
  getAllMapCoords file_scope id db = (inl (ReferenceError "width"), db).
Proof.
  intros Hm. unfold getAllMapCoords, bind, findOne. cbn [coll_get Map].
  rewrite Hm. reflexivity.
Qed.

(** C4 (the code departs from the claim): on a store holding a 2 x 2 map,
    [getAllMapCoords] of that map raises [ReferenceError] on the unbound
    identifier [width] instead of returning [[0,0],[0,1],[1,0],[1,1]];
    and where the enclosing scope does bind [width] and [length], here to
    3 and 1, the grid follows those bindings, not the map's fields. *)
Theorem getAllMapCoords_ignores_map :
  (exists m, getMap 0%N store_square_map = (inr (Some m), store_square_map)
             /\ map_width (doc m) = 2 /\ map_length (doc m) = 2)
  /\ getAllMapCoords file_scope 0%N store_square_map
     = (inl (ReferenceError "width"), store_square_map)
  /\ getAllMapCoords
       (fun x => if String.eqb x "width" then Some 3
                 else if String.eqb x "length" then Some 1 else None)
       0%N store_square_map
     = (inr [(0, 0); (1, 0); (2, 0)], store_square_map).
Proof.
  split; [eexists; repeat split|]. split; reflexivity.
Qed.

(** ** Inventories *)

Lemma createInventory_run id title db :
  createInventory id title db =
    let s := mkStored (db_next db) (mkInventory id title (db_Item db)) in
    (inr s, bump (coll_set Inventory (db_Inventory db ++ [s]) db)).
Proof. reflexivity. Qed.

(** C7: the Inventory that [createInventory] persists and returns embeds
    exactly the Item documents of the store at that moment, and an Item
    inserted afterwards is in the Item collection but not in that
    Inventory, which the insertion leaves as it was. *)
Theorem createInventory_snapshot (id : Z) (title : string) (db : Db)
    (newItem : ItemDoc) :
  issued_ids db ->
  exists inv c,
    fst (createInventory id title db) = inr inv
    /\ inv_id (doc inv) = id /\ inv_title (doc inv) = title
    /\ inv_items (doc inv) = db_Item db
    /\ let db1 := after (createInventory id title) db in
       db_Inventory db1 = db_Inventory db ++ [inv]
       /\ fst (insert Item newItem db1) = inr c
       /\ doc c = newItem
       /\ let db2 := after (insert Item newItem) db1 in
          db_Item db2 = db_Item db ++ [c]
          /\ db_Inventory db2 = db_Inventory db1
          /\ ~ In c (inv_items (doc inv)).
Proof.
  intros Hids. unfold after. rewrite createInventory_run. cbn.
  eexists; eexists. repeat split.
  intros Hin. unfold issued_ids in Hids. rewrite Forall_forall in Hids.
  apply Hids in Hin. cbn in Hin. lia.
Qed.

Lemma createInventory_snapshot_witness :
  issued_ids store_two_items
  /\ exists inv,
       fst (createInventory 7 "Weekly" store_two_items) = inr inv
       /\ List.map doc (inv_items (doc inv)) = [itemA; itemB]
       /\ fst (getInventory 7
                 (after (insert Item itemC)
                    (after (createInventory 7 "Weekly") store_two_items)))
          = inr (inv_items (doc inv)).
Proof.
  assert (Hids : issued_ids store_two_items).
  { repeat constructor. }
  split; [exact Hids|].
  destruct (createInventory_snapshot 7 "Weekly" store_two_items itemC Hids)
    as (inv & c & Hinv & _ & _ & Hitems & _).
  exists inv. split; [exact Hinv|]. rewrite Hitems.
  split; reflexivity.
Defined.

(** C8: when no Inventory has the given id, [getInventory] raises the
    [TypeError] of reading [items] on [null], which is neither an empty
    list nor any other value, and leaves the store as it is; when some
    Inventory has it, [getInventory] returns the embedded items of the
    first such Inventory. *)
Theorem getInventory_missing_or_items (id : Z) (db : Db) :
  ((forall i, In i (db_Inventory db) -> inv_id (doc i) <> id) ->
   getInventory id db = (inl (TypeError "items"), db)
   /\ forall items, fst (getInventory id db) <> inr items)
  /\ ((exists i, In i (db_Inventory db) /\ inv_id (doc i) = id) ->
      exists inv,
        In inv (db_Inventory db) /\ inv_id (doc inv) = id
        /\ getInventory id db = (inr (inv_items (doc inv)), db)).
Proof.
  unfold getInventory, bind, findOne. cbn [coll_get Inventory].
  split.
  - intros Hnone.
    destruct (List.find _ (db_Inventory db)) as [i|] eqn:E.
    + apply find_some in E as [Hin Heq]. apply Z.eqb_eq in Heq.
      now apply Hnone in Hin.
    + split; [reflexivity|]. intros items; cbn; discriminate.
  - intros (i & Hin & Hid).
    destruct (List.find _ (db_Inventory db)) as [inv|] eqn:E.
    + pose proof (find_some _ _ E) as [Hin' Heq]. apply Z.eqb_eq in Heq.
      exists inv. repeat split; assumption.
    + apply (find_none _ _ E) in Hin. apply Z.eqb_neq in Hin. contradiction.
Qed.

Lemma getInventory_missing_or_items_witness :
  getInventory 7 store_two_items
  = (inl (TypeError "items"), store_two_items)
  /\ getInventory 7 (after (createInventory 7 "Weekly") store_two_items)
     = (inr (db_Item store_two_items),
        after (createInventory 7 "Weekly") store_two_items).
Proof.
  split.
  - apply (getInventory_missing_or_items 7 store_two_items).
    intros i [].
  - destruct (getInventory_missing_or_items 7
                (after (createInventory 7 "Weekly") store_two_items))
      as [_ H].
    destruct H as (inv & [<-|[]] & _ & Hrun).
    + eexists; split; [left; reflexivity|reflexivity].
    + exact Hrun.
Defined.

(** ** createItem *)

(** C9 (the code departs from the claim): [createItem] raises
    [ReferenceError] on the unbound identifier [newAisle] whatever its
    arguments; no Item is persisted and no document is returned. *)
Theorem createItem_raises (name aisle bay : string) (price : Q)
    (xVal yVal : Z) (db : Db) :
  createItem no_documents name aisle bay price xVal yVal db
  = (inl (ReferenceError "newAisle"), db).
Proof. reflexivity. Qed.

(** Were [newAisle] bound, the document would go to the Aisles collection
    and the Item collection would still be left as it is. *)
Lemma createItem_never_writes_Item scope name aisle bay price xVal yVal db :
  db_Item (after (createItem scope name aisle bay price xVal yVal) db)
  = db_Item db.
Proof.
  unfold after, createItem. destruct (scope "newAisle"); reflexivity.
Qed.

(** ** Identifier shaping *)

(** C10 (amended): the [id] of an Item, an Aisle and a StoreMap is the
    store identifier [_id] when the parent has one and the explicit [id]
    when it has none, so for every such document read from the store it is
    its [_id]; the [id] of an Inventory is its explicit, caller-given
    [id]. *)
Theorem id_shaping :
  (forall o id,
      Item_id (mkParent (Oid o) id) = Oid o
      /\ Aisle_id (mkParent (Oid o) id) = Oid o
      /\ StoreMap_id (mkParent (Oid o) id) = Oid o)
  /\ (forall id,
         Item_id (mkParent Undefined id) = id
         /\ Aisle_id (mkParent Undefined id) = id
         /\ StoreMap_id (mkParent Undefined id) = id)
  /\ (forall i, Item_id (parent_of_item i) = Oid (_id i))
  /\ (forall a, Aisle_id (parent_of_aisle a) = Oid (_id a))
  /\ (forall m, StoreMap_id (parent_of_map m) = Oid (_id m))
  /\ (forall i, Inventory_id (parent_of_inventory i) = Int (inv_id (doc i))).
Proof. repeat split. Qed.

(** C10, as worded, fails on an Inventory: the one created under the id 7
    in the empty store has the store identifier 0, and its public [id] is
    the explicit 7. *)
Lemma inventory_id_is_explicit :
  exists inv,
    fst (createInventory 7 "Weekly" empty_db) = inr inv
    /\ parent__id (parent_of_inventory inv) = Oid 0%N
    /\ Inventory_id (parent_of_inventory inv) = Int 7
    /\ Inventory_id (parent_of_inventory inv)
       <> or_else (parent__id (parent_of_inventory inv))
                  (parent_id (parent_of_inventory inv)).
Proof.
  eexists. split; [reflexivity|]. cbn. repeat split. discriminate.
Qed.

(** * Further properties of the resolvers *)

(** ** Store identifiers *)

Lemma ids_ok_empty : ids_ok empty_db.
Proof. split; constructor. Qed.

Lemma ids_ok_step db db' :
  ids_ok db ->
  Permutation (db_next db :: all_ids db) (all_ids db') ->
  db_next db' = N.succ (db_next db) ->
  ids_ok db'.
Proof.
  intros [Hnd Hlt] Hperm Hnext. split.
  - eapply Permutation_NoDup; [exact Hperm|]. constructor; [|exact Hnd].
    intros Hin. rewrite Forall_forall in Hlt. apply Hlt in Hin. lia.
  - eapply Permutation_Forall; [exact Hperm|]. rewrite Hnext.
    constructor; [lia|].
    eapply Forall_impl; [|exact Hlt]. cbn; intros; lia.
Qed.

Lemma perm_slot (n : ObjectID) (a b c : list ObjectID) :
  Permutation (n :: a ++ b ++ c) (a ++ (b ++ [n]) ++ c).
Proof.
  rewrite <- (app_assoc b [n] c). cbn [app].
  rewrite (app_assoc a b (n :: c)), (app_assoc a b c).
  apply Permutation_middle.
Qed.

Ltac slot a b c :=
  match goal with
  | |- Permutation (?n :: _) _ =>
    let H := fresh in
    pose proof (perm_slot n a b c) as H;
    repeat rewrite <- app_assoc in H; repeat rewrite app_nil_r in H;
    cbn [app] in H; repeat rewrite <- app_assoc; exact H
  end.

(** An [insert] into any of the five collections keeps the identifiers in
    order. *)
Lemma ids_ok_insert db :
  ids_ok db ->
  (forall d, ids_ok (after (insert Item d) db))
  /\ (forall d, ids_ok (after (insert Aisles d) db))
  /\ (forall d, ids_ok (after (insert Checkout d) db))
  /\ (forall d, ids_ok (after (insert Map d) db))
  /\ (forall d, ids_ok (after (insert Inventory d) db)).
Proof.
  intros Hok.
  set (i := List.map _id (db_Item db)).
  set (a := List.map _id (db_Aisles db)).
  set (c := List.map _id (db_Checkout db)).
  set (m := List.map _id (db_Map db)).
  set (v := List.map _id (db_Inventory db)).
  split; [|split; [|split; [|split]]];
    intros d; apply (ids_ok_step db); auto;
    unfold all_ids, after, insert; cbn; rewrite map_app; cbn [List.map _id];
    fold i a c m v.
  - slot (@nil ObjectID) i (a ++ c ++ m ++ v).
  - slot i a (c ++ m ++ v).
  - slot (i ++ a) c (m ++ v).
  - slot (i ++ a ++ c) m v.
  - slot (i ++ a ++ c ++ m) v (@nil ObjectID).
Qed.

Lemma createCheckout_run lane xStartVal xEndVal yStartVal yEndVal db :
  createCheckout lane xStartVal xEndVal yStartVal yEndVal db
  = insert Checkout (mkCheckout lane xStartVal xEndVal yStartVal yEndVal) db.
Proof. reflexivity. Qed.

(** The mutations keep [ids_ok]: the stores reached from the empty one
    satisfy it. *)
Lemma ids_ok_mutations (db : Db) :
  ids_ok db ->
  (forall number name xStartVal xEndVal yStartVal yEndVal,
      ids_ok (after (createAisle number name xStartVal xEndVal yStartVal yEndVal) db))
  /\ (forall lane xStartVal xEndVal yStartVal yEndVal,
         ids_ok (after (createCheckout lane xStartVal xEndVal yStartVal yEndVal) db))
  /\ (forall title description width length,
         ids_ok (after (createMap title description width length) db))
  /\ (forall id title, ids_ok (after (createInventory id title) db))
  /\ (forall scope name aisle bay price xVal yVal,
         ids_ok (after (createItem scope name aisle bay price xVal yVal) db)).
Proof.
  intros Hok.
  destruct (ids_ok_insert db Hok) as (_ & Haisle & Hlane & Hmap & Hinv).
  split; [|split; [|split; [|split]]].
  - intros. unfold after. rewrite createAisle_run.
    destruct (_ >? _); [exact Hok|]. apply Haisle.
  - intros. apply Hlane.
  - intros. unfold after. rewrite createMap_run.
    destruct (List.find _ (db_Map db)); [exact Hok|].
    destruct (negb _); [exact Hok|].
    destruct (negb _); [exact Hok|].
    destruct (negb _); [exact Hok|]. apply Hmap.
  - intros. apply Hinv.
  - intros. unfold after, createItem.
    destruct (scope "newAisle"); [apply Haisle | exact Hok].
Qed.

(** ** Lookups by identifier *)

Lemma find_by_id_fresh {A} (n : ObjectID) (d : A) (l : list (Stored A)) :
  Forall (fun s => (_id s < n)%N) l ->
  List.find (by_id n) (l ++ [mkStored n d]) = Some (mkStored n d).
Proof.
  induction l as [|s l IH]; intros Hl; cbn.
  - unfold by_id; cbn. now rewrite N.eqb_refl.
  - inversion Hl as [|? ? Hs Hrest]; subst.
    unfold by_id at 1. replace (_id s =? n)%N with false
      by (symmetry; apply N.eqb_neq; lia).
    now apply IH.
Qed.

Lemma find_app_found {A} (f : A -> bool) (l l' : list A) (x : A) :
  List.find f l = Some x -> List.find f (l ++ l') = Some x.
Proof.
  induction l as [|a l IH]; cbn; [discriminate|].
  destruct (f a); auto.
Qed.

Lemma find_app_none {A} (f : A -> bool) (l l' : list A) :
  List.find f l = None -> List.find f (l ++ l') = List.find f l'.
Proof.
  induction l as [|a l IH]; cbn; [reflexivity|].
  destruct (f a); [discriminate | exact IH].
Qed.

Lemma ids_ok_parts db :
  ids_ok db ->
  Forall (fun s => (_id s < db_next db)%N) (db_Item db)
  /\ Forall (fun s => (_id s < db_next db)%N) (db_Aisles db)
  /\ Forall (fun s => (_id s < db_next db)%N) (db_Checkout db)
  /\ Forall (fun s => (_id s < db_next db)%N) (db_Map db)
  /\ Forall (fun s => (_id s < db_next db)%N) (db_Inventory db).
Proof.
  intros [_ H]. unfold all_ids in H.
  rewrite !Forall_app, !Forall_map in H. tauto.
Qed.

Lemma find_by_id_spec {A} (id : ObjectID) (l : list (Stored A)) :
  (List.find (by_id id) l = None <-> forall s, In s l -> _id s <> id)
  /\ (forall s, List.find (by_id id) l = Some s -> In s l /\ _id s = id).
Proof.
  split; [split|].
  - intros Hnone s Hin. apply (find_none _ _ Hnone) in Hin.
    unfold by_id in Hin. now apply N.eqb_neq.
  - intros Hall. destruct (List.find (by_id id) l) as [s|] eqn:E; auto.
    apply find_some in E as [Hin Heq]. apply N.eqb_eq in Heq.
    now apply Hall in Hin.
  - intros s E. apply find_some in E as [Hin Heq].
    apply N.eqb_eq in Heq. auto.
Qed.

(** X2: [getItem], [getAisle] and [getMap] on the [id] string of a client.
    When [ObjectID(id)] throws, each raises that exception; when it gives
    an identifier, each returns [null] exactly when no document of its
    collection has that identifier, and otherwise a document of the
    collection under it.  The store is left as it is either way. *)
Theorem lookups_by_request (ctor : Constructor) (id : string) (db : Db) :
  (forall e, ctor id = inl e ->
     getItem_request ctor id db = (inl e, db)
     /\ getAisle_request ctor id db = (inl e, db)
     /\ getMap_request ctor id db = (inl e, db))
  /\ (forall o, ctor id = inr o ->
      (exists r, getItem_request ctor id db = (inr r, db)
         /\ (r = None <-> forall s, In s (db_Item db) -> _id s <> o)
         /\ (forall s, r = Some s -> In s (db_Item db) /\ _id s = o))
      /\ (exists r, getAisle_request ctor id db = (inr r, db)
            /\ (r = None <-> forall s, In s (db_Aisles db) -> _id s <> o)
            /\ (forall s, r = Some s -> In s (db_Aisles db) /\ _id s = o))
      /\ (exists r, getMap_request ctor id db = (inr r, db)
            /\ (r = None <-> forall s, In s (db_Map db) -> _id s <> o)
            /\ (forall s, r = Some s -> In s (db_Map db) /\ _id s = o))).
Proof.
  unfold getItem_request, getAisle_request, getMap_request, with_ObjectID.
  split.
  - intros e He. rewrite He. repeat split.
  - intros o Ho. rewrite Ho.
    split; [|split]; eexists; (split; [reflexivity|]); apply find_by_id_spec.
Qed.

Lemma lookups_by_request_witness :
  getItem_request hex_ObjectID "abc" store_square_map
  = (inl (Error msg_objectid), store_square_map)
  /\ getAisle_request hex_ObjectID "000000000000000000000000" store_square_map
     = (inr None, store_square_map)
  /\ exists m,
       getMap_request hex_ObjectID "000000000000000000000000" store_square_map
       = (inr (Some m), store_square_map)
       /\ map_title (doc m) = "Main Store".
Proof.
  split.
  - destruct (lookups_by_request hex_ObjectID "abc" store_square_map) as [H _].
    exact (proj1 (H _ eq_refl)).
  - destruct (lookups_by_request hex_ObjectID "000000000000000000000000"
                store_square_map) as [_ H].
    destruct (H 0%N eq_refl)
      as (_ & (ra & Ha & Hnone & _) & (rm & Hm & Hnone' & Hsome)).
    split.
    + rewrite Ha. replace ra with (@None (Stored AisleDoc)); [reflexivity|].
      symmetry. apply Hnone. intros s [].
    + destruct rm as [m|].
      * exists m. split; [exact Hm|].
        destruct (Hsome m eq_refl) as [[<-|[]] _]. reflexivity.
      * exfalso. destruct Hnone' as [Hn _].
        apply (Hn eq_refl (mkStored 0%N
                 (mkStoreMap "Main Store" "Ground floor" 2 2 [] [])));
          [left; reflexivity | reflexivity].
Defined.

(** ** createMap, check by check *)

Lemma title_unused_find title db :
  title_unused title db <->
  List.find (fun m => String.eqb (map_title (doc m)) title) (db_Map db) = None.
Proof.
  split; [apply title_free|].
  intros Hnone m Hin Heq. apply (find_none _ _ Hnone) in Hin.
  apply String.eqb_neq in Hin. contradiction.
Qed.

Lemma all_aisles_fit width length l :
  forallb (aisle_in_map width length) l = true
  <-> forall a, In a l -> MapSpec.aisle_fits width length a.
Proof.
  rewrite forallb_forall. split; intros H a Ha; apply aisle_in_map_fits; auto.
Qed.

Lemma all_lanes_fit width length l :
  forallb (lane_in_map width length) l = true
  <-> forall c, In c l -> MapSpec.lane_fits width length c.
Proof.
  rewrite forallb_forall. split; intros H c Hc; apply lane_in_map_fits; auto.
Qed.

Lemma dimensions_ok width length :
  (width >? 0) && (length >? 0) = true <-> 0 < width /\ 0 < length.
Proof. rewrite andb_true_iff, !Z.gtb_lt. tauto. Qed.

Lemma createMap_run_ok title description width length db :
  (exists m, fst (createMap title description width length db) = inr m)
  <-> title_unused title db
      /\ 0 < width /\ 0 < length
      /\ (forall a, In a (db_Aisles db) -> MapSpec.aisle_fits width length a)
      /\ (forall c, In c (db_Checkout db) -> MapSpec.lane_fits width length c).
Proof.
  rewrite createMap_run, title_unused_find.
  rewrite <- all_aisles_fit, <- all_lanes_fit.
  rewrite <- (and_assoc (0 < width)), <- dimensions_ok.
  destruct (List.find _ (db_Map db)).
  { split; [intros [m H]; discriminate | intros [H _]; discriminate]. }
  destruct ((width >? 0) && (length >? 0)); cbn [negb].
  2:{ split; [intros [m H]; discriminate | intros (_ & H & _); discriminate]. }
  destruct (forallb _ (db_Aisles db)); cbn [negb].
  2:{ split; [intros [m H]; discriminate | intros (_ & _ & H & _); discriminate]. }
  destruct (forallb _ (db_Checkout db)); cbn [negb].
  2:{ split; [intros [m H]; discriminate | intros (_ & _ & _ & H); discriminate]. }
  split; [auto | eexists; reflexivity].
Qed.

(** X3: [createMap] succeeds exactly when the title is unused, both
    dimensions are positive, and every stored aisle and every stored
    checkout lane passes the range check against them. *)
Theorem createMap_succeeds_iff (title description : string) (width length : Z)
    (db : Db) :
  (exists m, fst (createMap title description width length db) = inr m)
  <-> title_unused title db
      /\ 0 < width /\ 0 < length
      /\ (forall a, In a (db_Aisles db) -> MapSpec.aisle_fits width length a)
      /\ (forall c, In c (db_Checkout db) -> MapSpec.lane_fits width length c).
Proof. apply createMap_run_ok. Qed.

Lemma createMap_inr title description width length db m :
  fst (createMap title description width length db) = inr m ->
  m = mkStored (db_next db)
        (mkStoreMap title description width length (db_Aisles db) (db_Checkout db))
  /\ after (createMap title description width length) db
     = bump (coll_set Map (db_Map db ++ [m]) db).
Proof.
  unfold after. rewrite createMap_run.
  destruct (List.find _ (db_Map db)); [discriminate|].
  destruct (negb _); [discriminate|].
  destruct (negb _); [discriminate|].
  destruct (negb _); [discriminate|].
  cbn. intros [= <-]. split; reflexivity.
Qed.

(** Stores with few documents: the identifiers are checked one by one. *)
Ltac ids_by_computation :=
  split; vm_compute;
  [ repeat (constructor;
            [ let H := fresh in
              intros H; repeat (destruct H as [H|H]; try discriminate);
              try contradiction | ]);
    constructor
  | repeat constructor ].

(** X4: a successful [createMap] returns the document it stores: it has
    the four arguments as its fields, embeds the Aisles and Checkout
    collections as they are at the call, gets the next store identifier,
    and is appended to the Map collection; the other collections are
    left as they are. *)
Theorem createMap_stores_snapshot (title description : string)
    (width length : Z) (db : Db) (m : Stored StoreMapDoc) :
  fst (createMap title description width length db) = inr m ->
  let db' := after (createMap title description width length) db in
  doc m = mkStoreMap title description width length (db_Aisles db) (db_Checkout db)
  /\ _id m = db_next db
  /\ db_Map db' = db_Map db ++ [m]
  /\ db_Item db' = db_Item db /\ db_Aisles db' = db_Aisles db
  /\ db_Checkout db' = db_Checkout db /\ db_Inventory db' = db_Inventory db.
Proof.
  intros Hm db'. destruct (createMap_inr _ _ _ _ _ _ Hm) as [-> Hdb].
  subst db'. rewrite Hdb. cbn. repeat split.
Qed.

Lemma createMap_stores_snapshot_witness :
  exists m,
    fst (createMap "Main Store" "" 5 5 store_reversed_aisle) = inr m
    /\ List.map doc (map_aisle (doc m))
       = [mkAisle 1 "Dairy" [] 10 3 0 2]
    /\ map_checkout (doc m) = [].
Proof.
  eexists. split; [reflexivity|].
  destruct (createMap_stores_snapshot "Main Store" "" 5 5 store_reversed_aisle
              _ eq_refl) as (Hdoc & _).
  rewrite Hdoc. split; reflexivity.
Defined.

(** X5: [createMap] fails with one of its four messages only, and a failed
    call leaves the whole store as it is. *)
Theorem createMap_failure (title description : string) (width length : Z)
    (db : Db) (e : Exn) :
  fst (createMap title description width length db) = inl e ->
  (e = Error msg_exists \/ e = Error msg_dimensions
   \/ e = Error msg_aisle \/ e = Error msg_lane)
  /\ snd (createMap title description width length db) = db.
Proof.
  rewrite createMap_run.
  destruct (List.find _ (db_Map db)); [cbn; intros [= <-]; auto|].
  destruct (negb _); [cbn; intros [= <-]; auto|].
  destruct (negb _); [cbn; intros [= <-]; auto|].
  destruct (negb _); [cbn; intros [= <-]; auto 6|].
  discriminate.
Qed.

Lemma createMap_failure_witness :
  snd (createMap "Main Store" "" 0 5 store_lane_outside) = store_lane_outside.
Proof.
  apply (createMap_failure "Main Store" "" 0 5 store_lane_outside
           (Error msg_dimensions)).
  reflexivity.
Defined.

(** X6: once a map is stored under a title, every [createMap] under that
    title fails with "Map already exists", whatever the other arguments
    (non-positive dimensions included), and stores nothing. *)
Theorem createMap_title_taken (title description description' : string)
    (width length width' length' : Z) (db : Db) (m : Stored StoreMapDoc) :
  fst (createMap title description width length db) = inr m ->
  createMap title description' width' length'
    (after (createMap title description width length) db)
  = (inl (Error msg_exists), after (createMap title description width length) db).
Proof.
  intros Hm.
  destruct (createMap_inr _ _ _ _ _ _ Hm) as [Hdoc Hdb].
  rewrite (createMap_run title description' width' length').
  destruct (List.find _ (db_Map (after _ db))) eqn:E; [reflexivity|].
  exfalso. rewrite Hdb in E. cbn in E.
  assert (Hin : In m (db_Map db ++ [m])) by (apply in_or_app; right; now left).
  apply (find_none _ _ E) in Hin. rewrite Hdoc in Hin. cbn in Hin.
  now rewrite String.eqb_refl in Hin.
Qed.

Lemma createMap_title_taken_witness :
  createMap "Main Store" "Annex" 0 (-1)
    (after (createMap "Main Store" "" 5 5) empty_db)
  = (inl (Error msg_exists), after (createMap "Main Store" "" 5 5) empty_db).
Proof.
  apply (createMap_title_taken "Main Store" "" "Annex" 5 5 0 (-1) empty_db
           (mkStored 0%N (mkStoreMap "Main Store" "" 5 5 [] []))).
  reflexivity.
Defined.

(** X7: under an unused title, a width or a length that is not positive
    makes [createMap] fail with the dimensions message before any aisle or
    checkout lane is looked at, and nothing is stored. *)
Theorem createMap_rejects_dimensions (title description : string)
    (width length : Z) (db : Db) :
  title_unused title db ->
  width <= 0 \/ length <= 0 ->
  createMap title description width length db = (inl (Error msg_dimensions), db).
Proof.
  intros Htitle Hdim. rewrite createMap_run.
  apply title_unused_find in Htitle. rewrite Htitle.
  replace ((width >? 0) && (length >? 0)) with false; [reflexivity|].
  symmetry. apply not_true_is_false. rewrite dimensions_ok. lia.
Qed.

Lemma createMap_rejects_dimensions_witness :
  createMap "Main Store" "" 0 5 store_both_outside
  = (inl (Error msg_dimensions), store_both_outside).
Proof.
  apply createMap_rejects_dimensions.
  - intros m [].
  - left. lia.
Defined.

(** ** Round trips *)

(** X8: a map that [createMap] has just stored is what [getMap] returns
    under its identifier, and it stays so, embedded aisles and lanes
    included, after later [createAisle] and [createCheckout] calls: the
    map holds copies, not references. *)
Theorem createMap_then_getMap (title description : string) (width length : Z)
    (db : Db) (m : Stored StoreMapDoc) :
  ids_ok db ->
  fst (createMap title description width length db) = inr m ->
  let db1 := after (createMap title description width length) db in
  fst (getMap (_id m) db1) = inr (Some m)
  /\ (forall number name xStartVal xEndVal yStartVal yEndVal,
         fst (getMap (_id m)
                (after (createAisle number name xStartVal xEndVal yStartVal yEndVal) db1))
         = inr (Some m))
  /\ (forall lane xStartVal xEndVal yStartVal yEndVal,
         fst (getMap (_id m)
                (after (createCheckout lane xStartVal xEndVal yStartVal yEndVal) db1))
         = inr (Some m)).
Proof.
  intros Hok Hm db1.
  destruct (createMap_inr _ _ _ _ _ _ Hm) as [Hdoc Hdb].
  fold db1 in Hdb.
  destruct (ids_ok_parts db Hok) as (_ & _ & _ & Hmaps & _).
  assert (Hfind : List.find (by_id (_id m)) (db_Map db1) = Some m).
  { rewrite Hdb. cbn [db_Map bump coll_set Map]. rewrite Hdoc.
    cbn [_id]. now apply find_by_id_fresh. }
  split; [exact (f_equal (fun r => inr (B:=option _) r) Hfind)|]. split.
  - intros. unfold after. rewrite createAisle_run.
    destruct (_ >? _); cbn; now rewrite Hfind.
  - intros. cbn. now rewrite Hfind.
Qed.

Lemma createMap_then_getMap_witness :
  let db := after (createCheckout 1 0 2 0 2)
              (after (createAisle 1 "Dairy" 0 2 0 5) empty_db) in
  ids_ok db
  /\ fst (getMap 2%N
            (after (createCheckout 2 0 9 0 9)
               (after (createMap "Main Store" "" 5 5) db)))
     = inr (Some (mkStored 2%N
                    (mkStoreMap "Main Store" "" 5 5
                       (db_Aisles db) (db_Checkout db)))).
Proof.
  intros db.
  assert (Hok : ids_ok db) by ids_by_computation.
  split; [exact Hok|].
  pose proof (createMap_then_getMap "Main Store" "" 5 5 db _ Hok eq_refl)
    as (_ & _ & H).
  exact (H 2 0 9 0 9).
Defined.

(** X9: every aisle that [createAisle] stores is at most as wide as it is
    long and has an empty [bays] array; it carries the six arguments, is
    appended to the Aisles collection and, in a store with identifiers in
    order, is what [getAisle] returns under its identifier. *)
Theorem createAisle_then_getAisle (number : Z) (name : string)
    (xStartVal xEndVal yStartVal yEndVal : Z) (db : Db) (a : Stored AisleDoc) :
  ids_ok db ->
  fst (createAisle number name xStartVal xEndVal yStartVal yEndVal db)
  = inr (Some a) ->
  let db' := after (createAisle number name xStartVal xEndVal yStartVal yEndVal) db in
  (xEndVal - xStartVal) + 1 <= (yEndVal - yStartVal) + 1
  /\ doc a = mkAisle number name [] xStartVal xEndVal yStartVal yEndVal
  /\ db_Aisles db' = db_Aisles db ++ [a]
  /\ getAisle (_id a) db' = (inr (Some a), db').
Proof.
  intros Hok Ha db'. subst db'. unfold after. revert Ha.
  rewrite createAisle_run.
  destruct (Z.gtb_spec ((xEndVal - xStartVal) + 1) ((yEndVal - yStartVal) + 1));
    [discriminate|].
  cbn. intros [= <-]. repeat split; [lia|].
  unfold getAisle, findOne. cbn.
  destruct (ids_ok_parts db Hok) as (_ & Haisles & _).
  now rewrite find_by_id_fresh.
Qed.

Lemma createAisle_then_getAisle_witness :
  let db := after (createCheckout 1 0 2 0 2) empty_db in
  let db' := after (createAisle 4 "Bakery" 3 5 0 8) db in
  getAisle 1%N db' = (inr (Some (mkStored 1%N (mkAisle 4 "Bakery" [] 3 5 0 8))), db').
Proof.
  intros db db'.
  assert (Hok : ids_ok db) by ids_by_computation.
  exact (proj2 (proj2 (proj2
    (createAisle_then_getAisle 4 "Bakery" 3 5 0 8 db _ Hok eq_refl)))).
Defined.

(** ** Inventories *)

(** X10: after [createInventory] under an id that no stored Inventory has,
    [getInventory] of that id returns the items of the store as they were
    at the creation; under an id that a stored Inventory already has, the
    new Inventory is stored as well, but [getInventory] goes on returning
    what it returned before. *)
Theorem createInventory_then_getInventory (id : Z) (title : string) (db : Db) :
  let db' := after (createInventory id title) db in
  ((forall i, In i (db_Inventory db) -> inv_id (doc i) <> id) ->
   getInventory id db' = (inr (db_Item db), db'))
  /\ ((exists i, In i (db_Inventory db) /\ inv_id (doc i) = id) ->
      List.length (db_Inventory db') = S (List.length (db_Inventory db))
      /\ fst (getInventory id db') = fst (getInventory id db)).
Proof.
  intros db'. subst db'. unfold after. rewrite createInventory_run.
  unfold getInventory, bind, findOne. cbn.
  set (f := fun i : Stored InventoryDoc => inv_id (doc i) =? id).
  split.
  - intros Hnone.
    assert (E : List.find f (db_Inventory db) = None).
    { destruct (List.find f (db_Inventory db)) as [i|] eqn:E; auto.
      apply find_some in E as [Hin Heq]. apply Z.eqb_eq in Heq.
      now apply Hnone in Hin. }
    assert (E' : List.find f (db_Inventory db
                   ++ [mkStored (db_next db) (mkInventory id title (db_Item db))])
                 = Some (mkStored (db_next db) (mkInventory id title (db_Item db)))).
    { rewrite (find_app_none _ _ _ E). cbn. unfold f; cbn.
      now rewrite Z.eqb_refl. }
    now rewrite E'.
  - intros (i & Hin & Hid). split.
    + rewrite length_app. cbn. lia.
    + destruct (List.find f (db_Inventory db)) as [j|] eqn:E.
      * now rewrite (find_app_found _ _ _ _ E).
      * apply (find_none _ _ E) in Hin. unfold f in Hin.
        apply Z.eqb_neq in Hin. contradiction.
Qed.

Lemma createInventory_then_getInventory_witness :
  let db1 := after (createInventory 7 "Weekly") empty_db in
  let db2 := after (insert Item itemA) db1 in
  let db3 := after (createInventory 7 "Monthly") db2 in
  List.map doc (db_Item db2) = [itemA]
  /\ List.length (db_Inventory db3) = 2%nat
  /\ fst (getInventory 7 db3) = inr [].
Proof.
  intros db1 db2 db3. split; [reflexivity|].
  destruct (createInventory_then_getInventory 7 "Monthly" db2) as [_ H].
  destruct H as [Hlen Hget].
  - eexists; split; [left; reflexivity|reflexivity].
  - split; [exact Hlen | unfold db3; rewrite Hget; reflexivity].
Defined.

(** ** getAllMapCoords *)

(** X11: for every stored map, whatever its width and length,
    [getAllMapCoords] under its identifier raises [ReferenceError] on the
    identifier [width], which neither server file binds; it returns no
    coordinates and leaves the store as it is. *)
Theorem getAllMapCoords_raises_on_stored_map (db : Db) (m : Stored StoreMapDoc) :
  In m (db_Map db) ->
  getAllMapCoords file_scope (_id m) db = (inl (ReferenceError "width"), db).
Proof.
  intros Hin.
  destruct (List.find (by_id (_id m)) (db_Map db)) as [m'|] eqn:E.
  - exact (getAllMapCoords_unbound _ _ _ E).
  - apply (find_none _ _ E) in Hin. unfold by_id in Hin.
    now rewrite N.eqb_refl in Hin.
Qed.

Lemma getAllMapCoords_raises_on_stored_map_witness :
  let db := after (createMap "Annex" "" 4 7) store_square_map in
  exists m,
    In m (db_Map db) /\ map_width (doc m) = 4 /\ map_length (doc m) = 7
    /\ getAllMapCoords file_scope (_id m) db = (inl (ReferenceError "width"), db).
Proof.
  intros db. eexists. split; [right; left; reflexivity|].
  split; [reflexivity|]. split; [reflexivity|].
  apply getAllMapCoords_raises_on_stored_map. right; left; reflexivity.
Defined.

Lemma getAllMapCoords_not_found (scope : Scope) (id : ObjectID) (db : Db) :
  (forall m, In m (db_Map db) -> _id m <> id) ->
  getAllMapCoords scope id db = (inl (Error msg_not_found), db).
Proof.
  intros Hnone. unfold getAllMapCoords, bind, findOne. cbn [coll_get Map].
  destruct (List.find (by_id id) (db_Map db)) as [m|] eqn:E; [|reflexivity].
  apply find_some in E as [Hin Heq]. apply N.eqb_eq in Heq.
  now apply Hnone in Hin.
Qed.

(** X12: [getAllMapCoords] on the [id] string of a client, in every scope.
    When [ObjectID(id)] throws, it raises that exception; when it gives an
    identifier that no stored map has, it fails with "Map not found",
    before any loop bound is read.  The store is left as it is either
    way. *)
Theorem getAllMapCoords_request_not_found (ctor : Constructor) (scope : Scope)
    (id : string) (db : Db) :
  (forall e, ctor id = inl e ->
     getAllMapCoords_request ctor scope id db = (inl e, db))
  /\ (forall o, ctor id = inr o ->
      (forall m, In m (db_Map db) -> _id m <> o) ->
      getAllMapCoords_request ctor scope id db = (inl (Error msg_not_found), db)).
Proof.
  unfold getAllMapCoords_request, with_ObjectID. split.
  - intros e He. now rewrite He.
  - intros o Ho Hnone. rewrite Ho. now apply getAllMapCoords_not_found.
Qed.

Lemma getAllMapCoords_request_not_found_witness :
  getAllMapCoords_request hex_ObjectID file_scope "abc" store_square_map
  = (inl (Error msg_objectid), store_square_map)
  /\ getAllMapCoords_request hex_ObjectID file_scope
       "00000000000000000000000a" store_square_map
     = (inl (Error msg_not_found), store_square_map).
Proof.
  destruct (getAllMapCoords_request_not_found hex_ObjectID file_scope "abc"
              store_square_map) as [Hbad _].
  destruct (getAllMapCoords_request_not_found hex_ObjectID file_scope
              "00000000000000000000000a" store_square_map) as [_ Hgood].
  split; [exact (Hbad _ eq_refl)|].
  apply (Hgood 10%N eq_refl). intros m [<-|[]]. discriminate.
Defined.

(** ** What the resolvers leave alone *)

Lemma inner_loop_store scope x fuel : forall y data db,
  snd (inner_loop scope x fuel y data db) = db.
Proof.
  induction fuel as [|fuel IH]; intros y data db;
    cbn [inner_loop]; unfold bind, identifier;
    destruct (scope "length") as [l|]; cbn; try reflexivity;
    destruct (y <? l); try reflexivity.
  apply IH.
Qed.

Lemma outer_loop_store scope fuel : forall x data db,
  snd (outer_loop scope fuel x data db) = db.
Proof.
  induction fuel as [|fuel IH]; intros x data db;
    cbn [outer_loop]; unfold bind at 1; unfold identifier at 1;
    destruct (scope "width") as [w|]; cbn; try reflexivity;
    destruct (x <? w); try reflexivity.
  unfold bind.
  pose proof (inner_loop_store scope x (iterations scope "length") 0 data db) as Hi.
  destruct (inner_loop scope x (iterations scope "length") 0 data db) as [[e|d] db1];
    cbn in Hi; subst db1; [reflexivity|].
  apply IH.
Qed.

(** X13: the five queries never write: whatever they return or raise, in
    any scope, the store after the call is the store before it. *)
Theorem queries_keep_store (db : Db) :
  (forall id, snd (getItem id db) = db)
  /\ (forall id, snd (getAisle id db) = db)
  /\ (forall id, snd (getMap id db) = db)
  /\ (forall id, snd (getInventory id db) = db)
  /\ (forall scope id, snd (getAllMapCoords scope id db) = db).
Proof.
  split; [|split; [|split; [|split]]]; try reflexivity.
  - intros id. unfold getInventory, bind, findOne. cbn [coll_get Inventory].
    destruct (List.find _ (db_Inventory db)); reflexivity.
  - intros scope id. unfold getAllMapCoords, bind, findOne. cbn [coll_get Map].
    destruct (List.find _ (db_Map db)); [|reflexivity].
    apply outer_loop_store.
Qed.

(** X14: [createAisle], [createCheckout], [createInventory] and
    [createItem] remove and edit nothing: after the call every collection
    is the one before it, except that [createCheckout] has appended one
    lane, [createInventory] one inventory, and [createAisle] and
    [createItem] at most one aisle.  None of them, [createItem] included,
    writes the Item collection. *)
Theorem mutations_only_append (db : Db) :
  (forall number name xStartVal xEndVal yStartVal yEndVal,
      let db' := after (createAisle number name xStartVal xEndVal yStartVal yEndVal) db in
      db_Item db' = db_Item db /\ db_Checkout db' = db_Checkout db
      /\ db_Map db' = db_Map db /\ db_Inventory db' = db_Inventory db
      /\ (db_Aisles db' = db_Aisles db
          \/ exists a, db_Aisles db' = db_Aisles db ++ [a]))
  /\ (forall lane xStartVal xEndVal yStartVal yEndVal,
         let db' := after (createCheckout lane xStartVal xEndVal yStartVal yEndVal) db in
         db_Item db' = db_Item db /\ db_Aisles db' = db_Aisles db
         /\ db_Map db' = db_Map db /\ db_Inventory db' = db_Inventory db
         /\ db_Checkout db'
            = db_Checkout db
              ++ [mkStored (db_next db)
                    (mkCheckout lane xStartVal xEndVal yStartVal yEndVal)])
  /\ (forall id title,
         let db' := after (createInventory id title) db in
         db_Item db' = db_Item db /\ db_Aisles db' = db_Aisles db
         /\ db_Checkout db' = db_Checkout db /\ db_Map db' = db_Map db
         /\ db_Inventory db'
            = db_Inventory db
              ++ [mkStored (db_next db) (mkInventory id title (db_Item db))])
  /\ (forall scope name aisle bay price xVal yVal,
         let db' := after (createItem scope name aisle bay price xVal yVal) db in
         db_Item db' = db_Item db /\ db_Checkout db' = db_Checkout db
         /\ db_Map db' = db_Map db /\ db_Inventory db' = db_Inventory db
         /\ (db_Aisles db' = db_Aisles db
             \/ exists a, db_Aisles db' = db_Aisles db ++ [a])).
Proof.
  split; [|split; [|split]].
  - intros. subst db'. unfold after. rewrite createAisle_run.
    destruct (_ >? _); cbn; repeat split; eauto.
  - intros. repeat split.
  - intros. repeat split.
  - intros. subst db'. unfold after, createItem.
    destruct (scope "newAisle"); cbn; repeat split; eauto.
Qed.

(** X15: the range check only bounds the ends from above: if [createMap]
    succeeds for a width and a length, it succeeds on the same store,
    under the same title, for every width and length at least as large. *)
Theorem createMap_larger_dimensions (title description description' : string)
    (width length width' length' : Z) (db : Db) (m : Stored StoreMapDoc) :
  fst (createMap title description width length db) = inr m ->
  width <= width' -> length <= length' ->
  exists m', fst (createMap title description' width' length' db) = inr m'
             /\ map_aisle (doc m') = map_aisle (doc m)
             /\ map_checkout (doc m') = map_checkout (doc m).
Proof.
  intros Hm Hw Hl.
  assert (Hex : exists m0, fst (createMap title description width length db) = inr m0)
    by eauto.
  apply createMap_run_ok in Hex.
  destruct Hex as (Ht & Hw0 & Hl0 & Ha & Hc).
  assert (Hok : exists m', fst (createMap title description' width' length' db) = inr m').
  { apply createMap_run_ok.
    split; [exact Ht|]. split; [lia|]. split; [lia|]. split.
    - intros a Hin. destruct (Ha a Hin) as [[? ?] [? ?]].
      unfold MapSpec.aisle_fits, MapSpec.in_range. lia.
    - intros c Hin. destruct (Hc c Hin) as [[? ?] [? ?]].
      unfold MapSpec.lane_fits, MapSpec.in_range. lia. }
  destruct Hok as [m' Hm']. exists m'. split; [exact Hm'|].
  destruct (createMap_inr _ _ _ _ _ _ Hm) as [-> _].
  destruct (createMap_inr _ _ _ _ _ _ Hm') as [-> _].
  split; reflexivity.
Qed.

Lemma createMap_larger_dimensions_witness :
  exists m', fst (createMap "Main Store" "Annex" 7 9 store_reversed_aisle) = inr m'
             /\ List.length (map_aisle (doc m')) = 1%nat.
Proof.
  destruct (createMap_larger_dimensions "Main Store" "" "Annex" 5 5 7 9
              store_reversed_aisle _ eq_refl) as (m' & Hm' & Ha & _);
    [lia | lia |].
  exists m'. split; [exact Hm'|]. rewrite Ha. reflexivity.
Defined.
